(** * image_upload.py: a shallow embedding and its properties

    The script reads a file named on the command line, base64-encodes it,
    wraps the text in a five-field JSON object and sends it with one
    HTTP POST, printing the parsed JSON reply.

    Conventions of the embedding:
    - Python [bytes] are [list byte];
    - Python [str] is a Rocq [string] holding the UTF-8 form of the text
      (['/'] is the single byte 0x2F and never occurs inside a multi-byte
      sequence, so splitting on it is the same on both views);
    - the interpreter and library primitives the script calls
      ([sys.argv] indexing, [open], [base64.b64encode], [bytes.decode],
      [requests.post], [Response.json], [print]) are modelled after their
      documented behaviour, failures before and after the request
      included; the script itself (lines 6-23) is [main]. *)

From Stdlib Require Import NArith Strings.Byte Strings.Ascii Strings.String.
From stdpp Require Import gmap strings list.

Local Open Scope N_scope.

(** ** Python exceptions the script can end with *)

Inductive exn : Type :=
| IndexError              (* sys.argv[i] or a list index out of range *)
| FileNotFoundError       (* open: no such file *)
| IsADirectoryError       (* open: the path names a directory *)
| NotADirectoryError      (* open: a component of the path is no directory *)
| PermissionError         (* open: the file is not readable *)
| UnicodeDecodeError      (* bytes.decode('utf-8') on ill-formed input *)
| InvalidHeader           (* requests.post: a header value is refused *)
| UnicodeEncodeError      (* a text that the target encoding cannot hold *)
| ValueError              (* http.client: illegal header value;
                             json: an integer with too many digits *)
| ConnectionError         (* requests.post: no response was received *)
| JSONDecodeError         (* Response.json(): the decoder rejects the body *)
| RecursionError.         (* Response.json(), print: nesting too deep *)

(** The error kinds of the specification, and the exceptions each covers. *)
Inductive error_kind : Type :=
| ArgumentError | FileAccessError | NetworkError | ResponseParseError
| OtherError.

Definition kind_of (e : exn) : error_kind :=
  match e with
  | IndexError => ArgumentError
  | FileNotFoundError | IsADirectoryError | NotADirectoryError
  | PermissionError => FileAccessError
  | ConnectionError => NetworkError
  | JSONDecodeError => ResponseParseError
  | UnicodeDecodeError | InvalidHeader | UnicodeEncodeError | ValueError
  | RecursionError => OtherError
  end.

(** ** [str.split(sep)] for a one-character separator, and [lst[-1]] *)

Module Str.

Fixpoint split (sep : ascii) (s : string) : list string :=
  match s with
  | EmptyString => [EmptyString]
  | String c s' =>
      if Ascii.eqb c sep then EmptyString :: split sep s'
      else match split sep s' with
           | seg :: segs => String c seg :: segs
           | [] => [String c EmptyString]
           end
  end.

(** [sep in s] *)
Fixpoint contains (sep : ascii) (s : string) : bool :=
  match s with
  | EmptyString => false
  | String c s' => Ascii.eqb c sep || contains sep s'
  end.

(** [s.endswith(sep)] *)
Fixpoint endswith (sep : ascii) (s : string) : bool :=
  match s with
  | EmptyString => false
  | String c EmptyString => Ascii.eqb c sep
  | String _ s' => endswith sep s'
  end.

Definition nonempty (s : string) : bool :=
  match s with EmptyString => false | String _ _ => true end.

End Str.

(** [lst[-1]]: the last element, [IndexError] on the empty list. *)
Definition index_m1 {A} (l : list A) : exn + A :=
  match last l with
  | Some x => inr x
  | None => inl IndexError
  end.

(** ** [base64.b64encode] and [base64.b64decode] (RFC 4648, section 4) *)

Module Base64.

Definition table_b2a_base64 : list byte :=
  list_byte_of_string
    "ABCDEFGHIJKLMNOPQRSTUVWXYZabcdefghijklmnopqrstuvwxyz0123456789+/".

Definition BASE64_PAD : byte := "="%byte.

(** The character of a 6-bit value. *)
Definition b2a (i : N) : byte :=
  nth (N.to_nat i) table_b2a_base64 BASE64_PAD.

Fixpoint index_of (c : byte) (tbl : list byte) (i : N) : option N :=
  match tbl with
  | [] => None
  | x :: tbl' => if Byte.eqb c x then Some i else index_of c tbl' (N.succ i)
  end.

(** The 6-bit value of a character of the alphabet. *)
Definition a2b (c : byte) : option N := index_of c table_b2a_base64 0.

(** The four 6-bit groups of three bytes. *)
Definition sextets (b0 b1 b2 : N) : N * N * N * N :=
  (N.shiftr b0 2,
   N.lor (N.shiftl (N.land b0 3) 4) (N.shiftr b1 4),
   N.lor (N.shiftl (N.land b1 15) 2) (N.shiftr b2 6),
   N.land b2 63).

(** A byte from an integer, truncated to 8 bits as a C [unsigned char]. *)
Definition byte_of (n : N) : byte :=
  default Byte.x00 (Byte.of_N (N.land n 255)).

Definition octet0 (s0 s1 : N) : byte :=
  byte_of (N.lor (N.shiftl s0 2) (N.shiftr s1 4)).
Definition octet1 (s1 s2 : N) : byte :=
  byte_of (N.lor (N.shiftl s1 4) (N.shiftr s2 2)).
Definition octet2 (s2 s3 : N) : byte :=
  byte_of (N.lor (N.shiftl s2 6) s3).

Fixpoint b64encode (s : list byte) : list byte :=
  match s with
  | [] => []
  | [b0] =>
      let '(s0, s1, _, _) := sextets (Byte.to_N b0) 0 0 in
      [b2a s0; b2a s1; BASE64_PAD; BASE64_PAD]
  | [b0; b1] =>
      let '(s0, s1, s2, _) := sextets (Byte.to_N b0) (Byte.to_N b1) 0 in
      [b2a s0; b2a s1; b2a s2; BASE64_PAD]
  | b0 :: b1 :: b2 :: rest =>
      let '(s0, s1, s2, s3) :=
        sextets (Byte.to_N b0) (Byte.to_N b1) (Byte.to_N b2) in
      b2a s0 :: b2a s1 :: b2a s2 :: b2a s3 :: b64encode rest
  end.

Definition is_nil {A} (l : list A) : bool :=
  match l with [] => true | _ => false end.

(** Strict decoding: groups of four characters of the alphabet, padding
    only in the last group; [None] stands for [binascii.Error]. *)
Fixpoint b64decode (s : list byte) : option (list byte) :=
  match s with
  | [] => Some []
  | c0 :: c1 :: c2 :: c3 :: rest =>
      s0 ← a2b c0;
      s1 ← a2b c1;
      if Byte.eqb c2 BASE64_PAD then
        if Byte.eqb c3 BASE64_PAD && is_nil rest
        then Some [octet0 s0 s1] else None
      else
        s2 ← a2b c2;
        if Byte.eqb c3 BASE64_PAD then
          if is_nil rest then Some [octet0 s0 s1; octet1 s1 s2] else None
        else
          s3 ← a2b c3;
          tl ← b64decode rest;
          Some (octet0 s0 s1 :: octet1 s1 s2 :: octet2 s2 s3 :: tl)
  | _ => None
  end.

End Base64.

(** ** [bytes.decode('utf-8')] *)

Module Utf8.

Definition in_range (lo hi : N) (b : byte) : bool :=
  (lo <=? Byte.to_N b) && (Byte.to_N b <=? hi).

Definition cont (b : byte) : bool := in_range 0x80 0xBF b.

(** The second byte of a three-byte sequence led by [b0]. *)
Definition second3 (b0 b1 : byte) : bool :=
  if Byte.to_N b0 =? 0xE0 then in_range 0xA0 0xBF b1
  else if Byte.to_N b0 =? 0xED then in_range 0x80 0x9F b1
  else cont b1.

(** The second byte of a four-byte sequence led by [b0]. *)
Definition second4 (b0 b1 : byte) : bool :=
  if Byte.to_N b0 =? 0xF0 then in_range 0x90 0xBF b1
  else if Byte.to_N b0 =? 0xF4 then in_range 0x80 0x8F b1
  else cont b1.

(** Well-formed UTF-8 byte sequences (Unicode Standard, table 3-7). *)
Fixpoint well_formed (bs : list byte) : bool :=
  match bs with
  | [] => true
  | b0 :: t0 =>
      if in_range 0x00 0x7F b0 then well_formed t0 else
      match t0 with
      | [] => false
      | b1 :: t1 =>
          if in_range 0xC2 0xDF b0 then cont b1 && well_formed t1 else
          match t1 with
          | [] => false
          | b2 :: t2 =>
              if in_range 0xE0 0xEF b0
              then second3 b0 b1 && cont b2 && well_formed t2 else
              match t2 with
              | [] => false
              | b3 :: t3 =>
                  in_range 0xF0 0xF4 b0 && second4 b0 b1
                  && cont b2 && cont b3 && well_formed t3
              end
          end
      end
  end.

(** [bs.decode('utf-8')]: the text whose UTF-8 form is [bs]. *)
Definition decode (bs : list byte) : exn + string :=
  if well_formed bs then inr (string_of_list_byte bs)
  else inl UnicodeDecodeError.

End Utf8.

(** ** Header values, as [requests] and [http.client] treat them

    [requests.post] first checks every header value against the pattern
    [^\S[^\r\n]*$|^$] and raises [InvalidHeader] on a mismatch; then
    [http.client.putheader] encodes the value in Latin-1 (raising
    [UnicodeEncodeError]) and refuses a line break that is not followed by
    white space ([ValueError]). All this happens before anything is
    sent. A text is held in UTF-8 form; a byte that is not part of a
    well-formed sequence stands for the lone surrogate that the
    interpreter puts in its place, which no check below accepts as
    white space and which Latin-1 cannot hold. *)

Module Header.

Inductive error : Type :=
| Refused            (* requests: InvalidHeader *)
| NotLatin1          (* http.client: UnicodeEncodeError *)
| Illegal.           (* http.client: ValueError *)

Definition exn_of (e : error) : exn :=
  match e with
  | Refused => InvalidHeader
  | NotLatin1 => UnicodeEncodeError
  | Illegal => ValueError
  end.

Definition LF : N := 0x0A.
Definition CR : N := 0x0D.

(** Whether the first character is white space, as [\s] of [re] on a
    [str]: U+0009-000D, U+001C-0020, U+0085, U+00A0, U+1680,
    U+2000-200A, U+2028, U+2029, U+202F, U+205F, U+3000. *)
Definition starts_with_space (bs : list byte) : bool :=
  match bs with
  | [] => false
  | b0 :: t0 =>
      let n0 := Byte.to_N b0 in
      if (0x09 <=? n0) && (n0 <=? 0x0D) || (0x1C <=? n0) && (n0 <=? 0x20)
      then true else
      match t0 with
      | [] => false
      | b1 :: t1 =>
          let n1 := Byte.to_N b1 in
          if n0 =? 0xC2 then (n1 =? 0x85) || (n1 =? 0xA0) else
          match t1 with
          | [] => false
          | b2 :: _ =>
              let n2 := Byte.to_N b2 in
              (n0 =? 0xE1) && (n1 =? 0x9A) && (n2 =? 0x80)
              || (n0 =? 0xE2) && (n1 =? 0x80)
                 && ((0x80 <=? n2) && (n2 <=? 0x8A)
                     || (n2 =? 0xA8) || (n2 =? 0xA9) || (n2 =? 0xAF))
              || (n0 =? 0xE2) && (n1 =? 0x81) && (n2 =? 0x9F)
              || (n0 =? 0xE3) && (n1 =? 0x80) && (n2 =? 0x80)
          end
      end
  end.

(** [[^\r\n]*$]: no line break up to the end, where [$] also matches
    just before one final line feed. *)
Fixpoint no_break_to_end (bs : list byte) : bool :=
  match bs with
  | [] => true
  | [b] => negb (Byte.to_N b =? CR)
  | b :: rest =>
      negb ((Byte.to_N b =? CR) || (Byte.to_N b =? LF))
      && no_break_to_end rest
  end.

(** [re.match(r"^\S[^\r\n]*$|^$", v)] succeeds. *)
Definition accepted (v : list byte) : bool :=
  match v with
  | [] => true
  | b :: rest =>
      negb (starts_with_space v) && no_break_to_end rest
      || (Byte.to_N b =? LF) && Base64.is_nil rest
  end.

(** [v.encode('latin-1')]: the characters up to U+00FF, one byte each. *)
Fixpoint latin1 (v : list byte) : option (list byte) :=
  match v with
  | [] => Some []
  | b0 :: t0 =>
      let n0 := Byte.to_N b0 in
      if n0 <? 0x80 then cons b0 <$> latin1 t0 else
      match t0 with
      | [] => None
      | b1 :: t1 =>
          if ((n0 =? 0xC2) || (n0 =? 0xC3)) && Utf8.cont b1
          then cons (Base64.byte_of (Byte.to_N b1 + (n0 - 0xC2) * 0x40))
                 <$> latin1 t1
          else None
      end
  end.

Definition blank (b : byte) : bool :=
  (Byte.to_N b =? 0x20) || (Byte.to_N b =? 0x09).

(** A match of [\n(?![ \t])|\r(?![ \t\n])] somewhere in the bytes. *)
Fixpoint illegal (bs : list byte) : bool :=
  match bs with
  | [] => false
  | b :: rest =>
      let followed_by (ok : byte → bool) :=
        match rest with [] => false | c :: _ => ok c end in
      (Byte.to_N b =? LF) && negb (followed_by blank)
      || (Byte.to_N b =? CR)
         && negb (followed_by (λ c, blank c || (Byte.to_N c =? LF)))
      || illegal rest
  end.

(** [putheader]: the bytes put on the wire for a value. *)
Definition putheader (v : string) : error + string :=
  match latin1 (list_byte_of_string v) with
  | None => inl NotLatin1
  | Some bs =>
      if illegal bs then inl Illegal else inr (string_of_list_byte bs)
  end.

(** The bytes on the wire for one header value, or the error it ends in. *)
Definition wire (v : string) : error + string :=
  if accepted (list_byte_of_string v) then putheader v else inl Refused.

(** Every header value passes the check of [requests]. *)
Definition all_accepted (hs : gmap string string) : bool :=
  map_fold (λ _ v ok, ok && accepted (list_byte_of_string v)) true hs.

(** The headers as [putheader] writes them, one after the other; with
    several headers in error, which one is reported is left open. *)
Definition put_all (hs : gmap string string) : error + gmap string string :=
  map_fold (λ k v acc,
              match acc with
              | inl e => inl e
              | inr m =>
                  match putheader v with
                  | inl e => inl e
                  | inr bs => inr (<[k := bs]> m)
                  end
              end)
           (inr ∅) hs.

(** The headers on the wire, or the error the request ends in before it
    is sent. *)
Definition prepare (hs : gmap string string) : error + gmap string string :=
  if all_accepted hs then put_all hs else inl Refused.



End Header.

(** ** [json.loads], as [Response.json()] uses it *)

(** Why the decoder gives no value. *)
Inductive json_error : Type :=
| NotJSON               (* the decoder rejects the text: JSONDecodeError *)
| IntegerTooLong        (* an integer beyond the digit limit: ValueError *)
| TooDeep.              (* arrays or objects nested too deeply *)

Definition exn_of_json_error (e : json_error) : exn :=
  match e with
  | NotJSON => JSONDecodeError
  | IntegerTooLong => ValueError
  | TooDeep => RecursionError
  end.

(** ** [print] *)

(** Why [print] writes nothing. *)
Inductive print_error : Type :=
| NotEncodable      (* a character that the encoding of standard output
                       cannot hold: UnicodeEncodeError *)
| TooDeepToShow.    (* a value nested too deeply for its text to be built *)

Definition exn_of_print_error (e : print_error) : exn :=
  match e with
  | NotEncodable => UnicodeEncodeError
  | TooDeepToShow => RecursionError
  end.

(** [base64.b64decode] applied to a [str]: the text is taken as its bytes. *)
Definition b64decode_str (s : string) : option (list byte) :=
  Base64.b64decode (list_byte_of_string s).

(** ** The outside world: file system and HTTP server *)

(** Why [open(path, "rb")] fails. *)
Inductive oserror : Type := ENOENT | EISDIR | ENOTDIR | EACCES.

Definition exn_of_oserror (e : oserror) : exn :=
  match e with
  | ENOENT => FileNotFoundError
  | EISDIR => IsADirectoryError
  | ENOTDIR => NotADirectoryError
  | EACCES => PermissionError
  end.

(** A file opened for reading in binary mode, as the bytes it holds. *)
Record file : Type := File { read : list byte }.

(** The values stored in [r_json]. *)
Inductive jvalue : Type :=
| JStr (s : string)
| JBool (b : bool).

Global Instance jvalue_eq_dec : EqDecision jvalue.
Proof. solve_decision. Defined.

(** A POST request as it is sent: its address, its JSON body, and the
    headers that the caller gave, with the bytes that go on the wire as
    their values. The headers that the library adds by itself (content
    type, length and the like) are not listed. *)
Record request : Type := Request {
  url : string;
  json : gmap string jvalue;
  headers : gmap string string
}.

(** A [requests.Response]: status code and body text. *)
Record response : Type := Response {
  status_code : Z;
  text : string
}.

Record world : Type := World {
  fs : string → oserror + file;        (* what [open(path, "rb")] gives *)
  net : request → option response      (* the reply to a POST, if any *)
}.

(** ** The script *)

(** The last piece of a split, the empty string for no piece at all. *)
Definition last_seg (sep : ascii) (s : string) : string :=
  default EmptyString (last (Str.split sep s)).

(** The value of [file_name] (line 7) when the index does not raise. *)
Definition file_name (file_path : string) : string :=
  last_seg "/" file_path.

(** The value of [file_encoded] (line 11) for a file holding [data], when
    the decoding does not raise. *)
Definition file_encoded (data : list byte) : string :=
  string_of_list_byte (Base64.b64encode data).

(** The endpoint, a literal of line 22. *)
Definition endpoint : string := "http://0.0.0.0:5001/files".

Section Script.

(** The parsed form of a JSON text and [json.loads], used by
    [Response.json()]; and what stops [print] from writing a parsed
    value to standard output, if anything does. *)
Context {J : Type} (json_loads : string → json_error + J)
        (print_check : J → option print_error).

Inductive event : Type :=
| EvOpen (path : string)
| EvPost (rq : request)
| EvPrint (j : J).

(** Computations that may raise and that log their effects. *)
Definition M (A : Type) : Type := list event → (exn + A) * list event.

Definition ret {A} (x : A) : M A := λ tr, (inr x, tr).
Definition raise {A} (e : exn) : M A := λ tr, (inl e, tr).
Definition bind {A B} (m : M A) (k : A → M B) : M B :=
  λ tr, match m tr with
        | (inr x, tr') => k x tr'
        | (inl e, tr') => (inl e, tr')
        end.
Definition emit (ev : event) : M unit := λ tr, (inr tt, tr ++ [ev]).
Definition lift {A} (r : exn + A) : M A :=
  match r with inr x => ret x | inl e => raise e end.

Local Notation "x <- m ;; k" := (bind m (λ x, k))
  (at level 100, m at next level, right associativity).
Local Notation "m ;;; k" := (bind m (λ _, k))
  (at level 100, right associativity).

(** [sys.argv[i]] *)
Definition argv_get (argv : list string) (i : nat) : M string :=
  match argv !! i with
  | Some a => ret a
  | None => raise IndexError
  end.

(** [open(path, "rb")] *)
Definition open_rb (w : world) (path : string) : M file :=
  emit (EvOpen path) ;;;
  match fs w path with
  | inr f => ret f
  | inl e => raise (exn_of_oserror e)
  end.

(** [requests.post(url, json=js, headers=hs)]: the headers are checked
    and encoded first; only then is the request sent, with the headers as
    encoded. *)
Definition requests_post (w : world) (u : string)
    (js : gmap string jvalue) (hs : gmap string string) : M response :=
  match Header.prepare hs with
  | inl e => raise (Header.exn_of e)
  | inr sent =>
      let rq := Request u js sent in
      emit (EvPost rq) ;;;
      match net w rq with
      | Some r => ret r
      | None => raise ConnectionError
      end
  end.

(** [r.json()] *)
Definition response_json (r : response) : M J :=
  match json_loads (text r) with
  | inr j => ret j
  | inl e => raise (exn_of_json_error e)
  end.

(** [print(x)]: the text of [x] is built, encoded and written as a
    whole, or nothing is written. *)
Definition print (j : J) : M unit :=
  match print_check j with
  | None => emit (EvPrint j)
  | Some e => raise (exn_of_print_error e)
  end.

(** Line 7: [file_path.split('/')[-1]]. *)
Definition file_name_of (file_path : string) : exn + string :=
  index_m1 (Str.split "/" file_path).

(** Lines 13-19: the dict literal [r_json]. *)
Definition r_json_of (file_name file_encoded parentId : string)
    : gmap string jvalue :=
  <["parentId" := JStr parentId]>
    (<["data" := JStr file_encoded]>
       (<["isPublic" := JBool true]>
          (<["type" := JStr "image"]>
             (<["name" := JStr file_name]> ∅)))).

(** Lines 6-23 of image_upload.py. *)
Definition main (w : world) (argv : list string) : M unit :=
  file_path <- argv_get argv 1 ;;
  file_name <- lift (file_name_of file_path) ;;
  image_file <- open_rb w file_path ;;
  file_encoded <- lift (Utf8.decode (Base64.b64encode (read image_file))) ;;
  parentId <- argv_get argv 3 ;;
  let r_json := r_json_of file_name file_encoded parentId in
  token <- argv_get argv 2 ;;
  let r_headers : gmap string string := {["X-Token" := token]} in
  r <- requests_post w endpoint r_json r_headers ;;
  j <- response_json r ;;
  print j.

(** A run of the script from an empty log. *)
Definition run (w : world) (argv : list string) : (exn + unit) * list event :=
  main w argv [].

(** How the process ended. *)
Definition outcome (w : world) (argv : list string) : exn + unit :=
  fst (run w argv).

(** The POST requests issued, in order. *)
Definition posts_of (tr : list event) : list request :=
  omap (λ ev, match ev with EvPost rq => Some rq | _ => None end) tr.

(** What was printed to standard output, in order. *)
Definition prints_of (tr : list event) : list J :=
  omap (λ ev, match ev with EvPrint j => Some j | _ => None end) tr.

Definition posts (w : world) (argv : list string) : list request :=
  posts_of (snd (run w argv)).

Definition stdout (w : world) (argv : list string) : list J :=
  prints_of (snd (run w argv)).

(** The request sent for a path, the file it names, the bytes of the
    token on the wire and a parent id (lines 13-22). *)
Definition request_for (file_path : string) (f : file)
    (sent_token parentId : string) : request :=
  Request endpoint
          (r_json_of (file_name file_path) (file_encoded (read f)) parentId)
          {["X-Token" := sent_token]}.

(** The script as a decision tree over its inputs; [run_behaviour] below
    proves that [run] computes it. *)
Definition behaviour (w : world) (argv : list string)
    : (exn + unit) * list event :=
  match argv !! 1%nat with
  | None => (inl IndexError, [])
  | Some file_path =>
      match fs w file_path with
      | inl e => (inl (exn_of_oserror e), [EvOpen file_path])
      | inr f =>
          match argv !! 3%nat, argv !! 2%nat with
          | Some parentId, Some token =>
              match Header.wire token with
              | inl e => (inl (Header.exn_of e), [EvOpen file_path])
              | inr sent_token =>
                  let rq := request_for file_path f sent_token parentId in
                  match net w rq with
                  | None =>
                      (inl ConnectionError, [EvOpen file_path; EvPost rq])
                  | Some r =>
                      match json_loads (text r) with
                      | inl e =>
                          (inl (exn_of_json_error e),
                           [EvOpen file_path; EvPost rq])
                      | inr j =>
                          match print_check j with
                          | None =>
                              (inr tt,
                               [EvOpen file_path; EvPost rq; EvPrint j])
                          | Some e =>
                              (inl (exn_of_print_error e),
                               [EvOpen file_path; EvPost rq])
                          end
                      end
                  end
              end
          | _, _ => (inl IndexError, [EvOpen file_path])
          end
      end
  end.

End Script.

(** ** Notions used to state the properties *)

(** A path has a non-separator segment when one of the pieces between
    its ['/'] characters is not empty. *)
Definition has_nonsep_segment (file_path : string) : bool :=
  existsb Str.nonempty (Str.split "/" file_path).


(** The error kind a run ended with, if it ended with an error. *)
Definition failed_with (k : error_kind) (r : exn + unit) : Prop :=
  ∃ e, r = inl e ∧ kind_of e = k.

(** A file system on which no path that ends in ['/'] opens as a file:
    such a path names a directory or nothing. *)
Definition refuses_trailing_slash (w : world) : Prop :=
  ∀ path f, fs w path = inr f → Str.endswith "/" path = false.

(** ** A small concrete setting, for examples *)

Module Demo.

(** The values of the JSON texts that [loads] below reads. *)
Inductive value : Type :=
| VNone
| VBool (b : bool)
| VInt (z : Z)
| VStr (points : list N).

Definition in_N_range (lo hi n : N) : bool := (lo <=? n) && (n <=? hi).

Definition hex (b : byte) : option N :=
  let n := Byte.to_N b in
  if in_N_range 0x30 0x39 n then Some (n - 0x30)
  else if in_N_range 0x41 0x46 n then Some (n - 0x41 + 10)
  else if in_N_range 0x61 0x66 n then Some (n - 0x61 + 10)
  else None.

(** The character of a two-character escape. *)
Definition simple_escape (b : byte) : option N :=
  let n := Byte.to_N b in
  if n =? 0x22 then Some 0x22        (* quotation mark *)
  else if n =? 0x5C then Some 0x5C   (* reverse solidus *)
  else if n =? 0x2F then Some 0x2F   (* solidus *)
  else if n =? 0x62 then Some 0x08   (* b *)
  else if n =? 0x66 then Some 0x0C   (* f *)
  else if n =? 0x6E then Some 0x0A   (* n *)
  else if n =? 0x72 then Some 0x0D   (* r *)
  else if n =? 0x74 then Some 0x09   (* t *)
  else None.

(** The 16-bit units of a string, read from after its opening quote to
    its closing quote, which must end the text. *)
Fixpoint units (bs : list byte) : option (list N) :=
  match bs with
  | [] => None
  | b :: rest =>
      let n := Byte.to_N b in
      if n =? 0x22 then (if Base64.is_nil rest then Some [] else None)
      else if n =? 0x5C then
        match rest with
        | [] => None
        | e :: rest1 =>
            if Byte.to_N e =? 0x75 then
              match rest1 with
              | h3 :: h2 :: h1 :: h0 :: rest2 =>
                  d3 ← hex h3; d2 ← hex h2; d1 ← hex h1; d0 ← hex h0;
                  cons (((d3 * 16 + d2) * 16 + d1) * 16 + d0) <$> units rest2
              | _ => None
              end
            else
              u ← simple_escape e; cons u <$> units rest1
        end
      else if in_N_range 0x20 0x7F n then cons n <$> units rest
      else None
  end.

(** The characters of a list of units: a high surrogate followed by a low
    one is one character, any other unit is a character by itself. *)
Fixpoint points (us : list N) : list N :=
  match us with
  | [] => []
  | hi :: tl =>
      match tl with
      | [] => [hi]
      | lo :: rest =>
          if in_N_range 0xD800 0xDBFF hi && in_N_range 0xDC00 0xDFFF lo
          then (0x10000 + (hi - 0xD800) * 0x400 + (lo - 0xDC00)) :: points rest
          else hi :: points tl
      end
  end.

Definition is_digit (b : byte) : bool := in_N_range 0x30 0x39 (Byte.to_N b).

(** The digits of an integer literal and whether it has a minus sign. *)
Definition int_literal (bs : list byte) : option (bool * list byte) :=
  let '(neg, ds) :=
    match bs with
    | b :: rest => if Byte.to_N b =? 0x2D then (true, rest) else (false, bs)
    | [] => (false, [])
    end in
  match ds with
  | [] => None
  | d :: rest =>
      if forallb is_digit ds && (negb (Byte.to_N d =? 0x30) || Base64.is_nil rest)
      then Some (neg, ds) else None
  end.

Definition int_value (neg : bool) (ds : list byte) : Z :=
  let n := fold_left (λ acc d, acc * 10 + (Byte.to_N d - 0x30)) ds 0 in
  if neg then (- Z.of_N n)%Z else Z.of_N n.

(** The most digits an integer may have (the default of the interpreter
    since version 3.11). *)
Definition int_max_str_digits : nat := 4300.

(** [json.loads] on the texts [null], [true], [false], on integer
    literals and on strings of ASCII characters and escapes, none of them
    with white space around; any other text is outside of what these
    examples use and is taken as rejected. *)
Definition loads (s : string) : json_error + value :=
  if String.eqb s "null" then inr VNone
  else if String.eqb s "true" then inr (VBool true)
  else if String.eqb s "false" then inr (VBool false)
  else
    match list_byte_of_string s with
    | [] => inl NotJSON
    | b :: rest =>
        if Byte.to_N b =? 0x22 then
          match units rest with
          | Some us => inr (VStr (points us))
          | None => inl NotJSON
          end
        else
          match int_literal (b :: rest) with
          | Some (neg, ds) =>
              if (int_max_str_digits <? length ds)%nat
              then inl IntegerTooLong
              else inr (VInt (int_value neg ds))
          | None => inl NotJSON
          end
    end.

(** Whether the text of a value can be encoded in UTF-8: a string is
    written as it is, and a lone surrogate in it cannot be encoded. *)
Definition encodable (v : value) : bool :=
  match v with
  | VStr ps => forallb (λ c, negb (in_N_range 0xD800 0xDFFF c)) ps
  | _ => true
  end.

(** [print] on a standard output in UTF-8. *)
Definition print_check (v : value) : option print_error :=
  if encodable v then None else Some NotEncodable.

Definition photo : list byte := list_byte_of_string "Man".

(** One file, the directories above it, and nothing else. *)
Definition disk (path : string) : oserror + file :=
  if String.eqb path "a/b/c/photo.png" then inr (File photo)
  else if String.eqb path "a/b/c/photo.png/" then inl ENOTDIR
  else if String.eqb path "a/b/c" then inl EISDIR
  else if String.eqb path "a/b/c/" then inl EISDIR
  else inl ENOENT.

(** A server that answers every request with status [st] and body [body]. *)
Definition server (st : Z) (body : string) : request → option response :=
  λ _, Some (Response st body).

Definition quote : ascii := Ascii.ascii_of_byte x22.

(** The JSON text of a string, from what stands between its quotes. *)
Definition quoted (inner : string) : string :=
  String quote (inner +:+ String quote EmptyString).

Definition w_json : world := World disk (server 201 "true").
Definition w_html : world := World disk (server 200 "<html>").
Definition w_surrogate : world :=
  World disk (server 200 (quoted "\ud800")).
Definition w_digits : world :=
  World disk (server 200 (string_of_list_byte (replicate 4301 x31))).

Definition argv3 : list string :=
  ["image_upload.py"; "a/b/c/photo.png"; "tok/en=="; "42"]%string.

Definition argv_missing : list string :=
  ["image_upload.py"; "missing.png"; "tok/en=="; "42"]%string.

Definition argv_slash : list string :=
  ["image_upload.py"; "a/b/c/"; "tok/en=="; "42"]%string.

Definition argv_slash_missing : list string :=
  ["image_upload.py"; "missing/"; "tok/en=="; "42"]%string.

Definition argv1_missing : list string :=
  ["image_upload.py"; "missing.png"]%string.

Definition argv2 : list string :=
  ["image_upload.py"; "a/b/c/photo.png"; "tok/en=="]%string.

(** Tokens: with a character of Latin-1 beyond ASCII, with a character
    beyond Latin-1, with a space in front, with a line feed at the end. *)
Definition argv_latin1 : list string :=
  ["image_upload.py"; "a/b/c/photo.png"; "té"; "42"]%string.

Definition argv_euro : list string :=
  ["image_upload.py"; "a/b/c/photo.png"; "t€"; "42"]%string.

Definition argv_space : list string :=
  ["image_upload.py"; "a/b/c/photo.png"; " tok"; "42"]%string.

Definition argv_newline : list string :=
  ["image_upload.py"; "a/b/c/photo.png";
   String "t" (String (Ascii.ascii_of_byte x0a) EmptyString); "42"]%string.

Definition rq3 : request :=
  Request endpoint
          (r_json_of "photo.png" "TWFu" "42")
          {["X-Token" := "tok/en=="%string]}.

(** The request sent for the token ["té"]: one byte for the ["é"]. *)
Definition rq_latin1 : request :=
  Request endpoint
          (r_json_of "photo.png" "TWFu" "42")
          {["X-Token" := String "t" (String (Ascii.ascii_of_byte xe9) EmptyString)]}.

End Demo.

(** ** Further notions *)

(** The paths handed to [open], in order. *)
Definition opens_of {J} (tr : list (@event J)) : list string :=
  omap (λ ev, match ev with EvOpen path => Some path | _ => None end) tr.

Module Offline.

(** The files of [Demo.disk] and a server that cannot be reached. *)
Definition w_down : world := World Demo.disk (λ _, None).

End Offline.

(** * Properties *)

Example b64encode_Man :
  Base64.b64encode (list_byte_of_string "Man") = list_byte_of_string "TWFu".
Proof. reflexivity. Qed.

Example b64encode_Ma :
  Base64.b64encode (list_byte_of_string "Ma") = list_byte_of_string "TWE=".
Proof. reflexivity. Qed.

Example b64encode_M :
  Base64.b64encode (list_byte_of_string "M") = list_byte_of_string "TQ==".
Proof. reflexivity. Qed.

Example b64decode_TWE :
  Base64.b64decode (list_byte_of_string "TWE=") = Some (list_byte_of_string "Ma").
Proof. reflexivity. Qed.

Example utf8_two_bytes : Utf8.well_formed [xc3; xa9]%list = true.
Proof. reflexivity. Qed.

Example utf8_overlong : Utf8.well_formed [xc0; x80]%list = false.
Proof. reflexivity. Qed.

Example utf8_surrogate : Utf8.well_formed [xed; xa0; x80]%list = false.
Proof. reflexivity. Qed.

Example utf8_truncated : Utf8.well_formed [xe2; x82]%list = false.
Proof. reflexivity. Qed.

Example split_abc :
  Str.split "/" "a/b/c/photo.png" = ["a"; "b"; "c"; "photo.png"]%string.
Proof. reflexivity. Qed.

Example split_trailing : Str.split "/" "a/" = ["a"; ""]%string.
Proof. reflexivity. Qed.

(** ** Splitting a path *)

Section Split.
Variable sep : ascii.

Lemma split_cons_inv s : ∃ seg segs, Str.split sep s = seg :: segs.
Proof.
  destruct s as [|c s]; simpl; [by eauto|].
  destruct (Ascii.eqb c sep); [by eauto|].
  destruct (Str.split sep s); by eauto.
Qed.

Lemma split_no_sep s : Str.contains sep s = false → Str.split sep s = [s].
Proof.
  induction s as [|c s IH]; simpl; [done|].
  intros [Hc Hs]%orb_false_elim. rewrite Hc, IH by done. done.
Qed.

(** [(pre + sep + suf).split(sep) == pre.split(sep) + suf.split(sep)] *)
Lemma split_app pre suf :
  Str.split sep (pre +:+ String sep suf)
  = Str.split sep pre ++ Str.split sep suf.
Proof.
  induction pre as [|c pre IH]; simpl.
  - by rewrite Ascii.eqb_refl.
  - destruct (Ascii.eqb c sep); [by rewrite IH|].
    rewrite IH. destruct (split_cons_inv pre) as (seg & segs & ->). done.
Qed.

Lemma split_single s seg :
  Str.split sep s = [seg] → Str.contains sep s = false.
Proof.
  revert seg. induction s as [|c s IH]; simpl; [done|]. intros seg.
  destruct (Ascii.eqb c sep); simpl.
  - destruct (split_cons_inv s) as (? & ? & ->). intros; simplify_eq.
  - destruct (split_cons_inv s) as (x & l & E). rewrite E in *.
    destruct l; intros; simplify_eq. by apply (IH x).
Qed.

Lemma last_seg_no_sep s : Str.contains sep s = false → last_seg sep s = s.
Proof. intros H. unfold last_seg. by rewrite split_no_sep. Qed.

Lemma last_seg_app pre suf :
  Str.contains sep suf = false →
  last_seg sep (pre +:+ String sep suf) = suf.
Proof.
  intros H. unfold last_seg. rewrite split_app, (split_no_sep suf) by done.
  by rewrite last_snoc.
Qed.

Lemma last_seg_cons c s :
  last_seg sep (String c s) =
    if Ascii.eqb c sep then last_seg sep s
    else if Str.contains sep s then last_seg sep s else String c s.
Proof.
  unfold last_seg. simpl. destruct (Ascii.eqb c sep).
  - destruct (split_cons_inv s) as (seg & segs & ->). done.
  - destruct (Str.contains sep s) eqn:Hs; [|by rewrite split_no_sep].
    destruct (split_cons_inv s) as (seg & segs & E). rewrite E.
    destruct segs as [|seg' segs]; [|done].
    apply split_single in E. congruence.
Qed.

Lemma nonempty_last_seg s :
  Str.nonempty (last_seg sep s)
  = Str.nonempty s && negb (Str.endswith sep s).
Proof.
  induction s as [|c s IH]; [done|].
  rewrite last_seg_cons. cbn [Str.nonempty Str.endswith andb].
  destruct s as [|c' s]; [by destruct (Ascii.eqb c sep)|].
  destruct (Ascii.eqb c sep); [done|].
  destruct (Str.contains sep _) eqn:Hc; [done|].
  rewrite last_seg_no_sep in IH by done. done.
Qed.

Lemma endswith_app s :
  Str.endswith sep (s +:+ String sep EmptyString) = true.
Proof.
  induction s as [|c s IH]; simpl; [apply Ascii.eqb_refl|].
  rewrite IH. by destruct s.
Qed.

End Split.

(** The index of line 7 never raises: a split has at least one piece. *)
Lemma file_name_of_total (file_path : string) :
  file_name_of file_path = inr (file_name file_path).
Proof.
  unfold file_name_of, file_name, last_seg, index_m1.
  destruct (last (Str.split "/" file_path)) eqn:E; [done|].
  apply last_None in E.
  destruct (split_cons_inv "/" file_path) as (seg & segs & E'). congruence.
Qed.

(** ** Base64 *)

Section Base64_facts.
Import Base64.

(** A property of the 64 six-bit values holds when a check of each passes. *)
Lemma below_64_cases (p : N → bool) :
  forallb p (N.of_nat <$> seq 0 64) = true → ∀ i, i < 64 → p i = true.
Proof.
  intros Hp i Hi. rewrite forallb_forall in Hp. apply Hp.
  apply list_elem_of_In, list_elem_of_fmap. exists (N.to_nat i).
  split; [lia|]. apply list_elem_of_In, in_seq. lia.
Qed.

Lemma a2b_b2a i : i < 64 → a2b (b2a i) = Some i.
Proof.
  intros Hi. eapply bool_decide_eq_true_1.
  revert i Hi. apply (below_64_cases (λ i, bool_decide (a2b (b2a i) = Some i))).
  by vm_compute.
Qed.

Lemma b2a_not_pad i : i < 64 → Byte.eqb (b2a i) BASE64_PAD = false.
Proof.
  intros Hi. apply negb_true_iff.
  revert i Hi. apply (below_64_cases (λ i, negb (Byte.eqb (b2a i) BASE64_PAD))).
  by vm_compute.
Qed.

Lemma land_shiftl_low a b k : b < 2 ^ k → N.land (N.shiftl a k) b = 0.
Proof.
  intros Hb. apply N.bits_inj. intros n. rewrite N.land_spec, N.bits_0.
  destruct (N.lt_ge_cases n k) as [Hn|Hn].
  - by rewrite N.shiftl_spec_low.
  - rewrite <- (N.mod_small b (2 ^ k)) by done.
    rewrite N.mod_pow2_bits_high by done. apply andb_false_r.
Qed.

(** Or-ing into the cleared low bits of a shifted value is an addition. *)
Lemma lor_shiftl_add a b k :
  b < 2 ^ k → N.lor (N.shiftl a k) b = a * 2 ^ k + b.
Proof.
  intros Hb. rewrite <- N.lxor_lor by (by apply land_shiftl_low).
  rewrite <- N.add_nocarry_lxor by (by apply land_shiftl_low).
  by rewrite N.shiftl_mul_pow2.
Qed.

Ltac to_arith :=
  change 3 with (N.ones 2); change 15 with (N.ones 4);
  change 63 with (N.ones 6); change 255 with (N.ones 8);
  rewrite ?N.land_ones, ?N.shiftr_div_pow2;
  change (2 ^ 2) with 4; change (2 ^ 4) with 16;
  change (2 ^ 6) with 64; change (2 ^ 8) with 256.

Ltac div_mod_lia := zify; Z.to_euclidean_division_equations; lia.

Lemma sextets_arith b0 b1 b2 :
  b0 < 256 → b1 < 256 → b2 < 256 →
  sextets b0 b1 b2 =
    (b0 / 4, (b0 mod 4) * 16 + b1 / 16, (b1 mod 16) * 4 + b2 / 64, b2 mod 64).
Proof.
  intros H0 H1 H2. unfold sextets.
  rewrite (lor_shiftl_add _ (N.shiftr b1 4) 4),
          (lor_shiftl_add _ (N.shiftr b2 6) 2).
  - to_arith. reflexivity.
  - to_arith. div_mod_lia.
  - to_arith. div_mod_lia.
Qed.

Lemma to_N_lt b : Byte.to_N b < 256.
Proof. pose proof (Byte.to_N_bounded b). lia. Qed.

Lemma byte_of_to_N b : byte_of (Byte.to_N b) = b.
Proof.
  unfold byte_of. pose proof (to_N_lt b).
  change 255 with (N.ones 8). rewrite N.land_ones, N.mod_small by done.
  by rewrite Byte.of_to_N.
Qed.

(** What the decoder needs of the four groups of three bytes. *)
Lemma sextets_spec b0 b1 b2 :
  b0 < 256 → b1 < 256 → b2 < 256 →
  ∃ s0 s1 s2 s3,
    sextets b0 b1 b2 = (s0, s1, s2, s3) ∧
    (s0 < 64 ∧ s1 < 64 ∧ s2 < 64 ∧ s3 < 64) ∧
    octet0 s0 s1 = byte_of b0 ∧
    octet1 s1 s2 = byte_of b1 ∧
    octet2 s2 s3 = byte_of b2.
Proof.
  intros H0 H1 H2. rewrite sextets_arith by done.
  eexists _, _, _, _. split; [reflexivity|].
  unfold octet0, octet1, octet2, byte_of. split_and!.
  - div_mod_lia.
  - div_mod_lia.
  - div_mod_lia.
  - div_mod_lia.
  - do 2 f_equal. rewrite lor_shiftl_add by (to_arith; div_mod_lia).
    to_arith. div_mod_lia.
  - do 2 f_equal. rewrite lor_shiftl_add by (to_arith; div_mod_lia).
    to_arith. div_mod_lia.
  - do 2 f_equal. rewrite lor_shiftl_add by (to_arith; div_mod_lia).
    to_arith. div_mod_lia.
Qed.

Lemma b64decode_group s0 s1 s2 s3 rest :
  s0 < 64 → s1 < 64 → s2 < 64 → s3 < 64 →
  b64decode (b2a s0 :: b2a s1 :: b2a s2 :: b2a s3 :: rest) =
    tl ← b64decode rest;
    Some (octet0 s0 s1 :: octet1 s1 s2 :: octet2 s2 s3 :: tl).
Proof.
  intros H0 H1 H2 H3. cbn [b64decode].
  rewrite !a2b_b2a, !b2a_not_pad by done. reflexivity.
Qed.

Lemma b64decode_pad1 s0 s1 s2 :
  s0 < 64 → s1 < 64 → s2 < 64 →
  b64decode [b2a s0; b2a s1; b2a s2; BASE64_PAD] =
    Some [octet0 s0 s1; octet1 s1 s2].
Proof.
  intros H0 H1 H2. cbn [b64decode].
  rewrite !a2b_b2a, !b2a_not_pad by done. reflexivity.
Qed.

Lemma b64decode_pad2 s0 s1 :
  s0 < 64 → s1 < 64 →
  b64decode [b2a s0; b2a s1; BASE64_PAD; BASE64_PAD] = Some [octet0 s0 s1].
Proof.
  intros H0 H1. cbn [b64decode]. rewrite !a2b_b2a by done. reflexivity.
Qed.

(** Induction over a list three elements at a time. *)
Lemma list_ind3 {A} (P : list A → Prop) :
  P [] → (∀ a, P [a]) → (∀ a b, P [a; b]) →
  (∀ a b c l, P l → P (a :: b :: c :: l)) →
  ∀ l, P l.
Proof.
  intros H0 H1 H2 H3.
  assert (∀ l, P l ∧ (∀ a, P (a :: l)) ∧ (∀ a b, P (a :: b :: l))) as H.
  { induction l as [|x l (IH0 & IH1 & IH2)]; [by auto|].
    split_and!; [done| intros; apply IH2 | intros; by apply H3]. }
  intros l. apply H.
Qed.

Lemma b64decode_b64encode (s : list byte) : b64decode (b64encode s) = Some s.
Proof.
  induction s as [|b0|b0 b1|b0 b1 b2 rest IH] using list_ind3.
  - reflexivity.
  - cbn [b64encode].
    destruct (sextets_spec (Byte.to_N b0) 0 0)
      as (s0 & s1 & s2 & s3 & -> & (?&?&?&?) & E0 & _ & _);
      [apply to_N_lt|done|done|].
    rewrite b64decode_pad2, E0, byte_of_to_N by done. reflexivity.
  - cbn [b64encode].
    destruct (sextets_spec (Byte.to_N b0) (Byte.to_N b1) 0)
      as (s0 & s1 & s2 & s3 & -> & (?&?&?&?) & E0 & E1 & _);
      [apply to_N_lt|apply to_N_lt|done|].
    rewrite b64decode_pad1, E0, E1, !byte_of_to_N by done. reflexivity.
  - cbn [b64encode].
    destruct (sextets_spec (Byte.to_N b0) (Byte.to_N b1) (Byte.to_N b2))
      as (s0 & s1 & s2 & s3 & -> & (?&?&?&?) & E0 & E1 & E2);
      [apply to_N_lt ..|].
    rewrite b64decode_group, IH by done. cbn.
    rewrite E0, E1, E2, !byte_of_to_N. reflexivity.
Qed.

(** Every character of an encoding is ASCII. *)
Lemma b2a_ascii i : Byte.to_N (b2a i) <= 127.
Proof.
  unfold b2a.
  assert (Forall (λ b, Byte.to_N b <= 127) table_b2a_base64) as Ht.
  { vm_compute. repeat constructor; discriminate. }
  destruct (nth_in_or_default (N.to_nat i) table_b2a_base64 BASE64_PAD)
    as [Hin| ->].
  - rewrite Forall_forall in Ht. by apply Ht, list_elem_of_In.
  - vm_compute. discriminate.
Qed.

Lemma b64encode_ascii s : Forall (λ b, Byte.to_N b <= 127) (b64encode s).
Proof.
  assert (Byte.to_N BASE64_PAD <= 127) as Hp by (vm_compute; discriminate).
  induction s as [|b0|b0 b1|b0 b1 b2 rest IH] using list_ind3;
    cbn [b64encode]; [constructor|..];
    destruct (sextets _ _ _) as [[[s0 s1] s2] s3];
    repeat (constructor; [apply b2a_ascii || exact Hp|]);
    done || constructor.
Qed.

End Base64_facts.

Lemma ascii_well_formed bs :
  Forall (λ b, Byte.to_N b <= 127) bs → Utf8.well_formed bs = true.
Proof.
  induction 1 as [|b bs Hb _ IH]; [done|].
  cbn [Utf8.well_formed]. unfold Utf8.in_range.
  rewrite (proj2 (N.leb_le _ _) Hb), (proj2 (N.leb_le 0 _)) by lia. done.
Qed.

(** The decoding of line 11 never raises. *)
Lemma decode_b64encode (data : list byte) :
  Utf8.decode (Base64.b64encode data) = inr (file_encoded data).
Proof.
  unfold Utf8.decode. by rewrite ascii_well_formed by apply b64encode_ascii.
Qed.

(** Decoding the text of [file_encoded] gives the file back. *)
Lemma b64decode_file_encoded (data : list byte) :
  b64decode_str (file_encoded data) = Some data.
Proof.
  unfold b64decode_str, file_encoded.
  rewrite list_byte_of_string_of_list_byte. apply b64decode_b64encode.
Qed.

(** ** Header values *)

Section Header_facts.
Import Header.








(** The one header of the script. *)
Lemma prepare_singleton k v :
  prepare {[k := v]} =
    match wire v with
    | inl e => inl e
    | inr sent => inr {[k := sent]}
    end.
Proof.
  unfold prepare, all_accepted, put_all, wire.
  rewrite !map_fold_singleton. cbn [andb].
  destruct (accepted _); [|done].
  destruct (putheader v); [done|]. by rewrite insert_empty.
Qed.

End Header_facts.

(** ** The script *)

Section Run.
Context {J : Type} (json_loads : string → json_error + J)
        (print_check : J → option print_error).

Lemma run_behaviour w argv :
  run json_loads print_check w argv = behaviour json_loads print_check w argv.
Proof.
  unfold run, behaviour, main, argv_get.
  destruct (argv !! 1%nat) as [file_path|] eqn:E1; [|done].
  unfold bind at 1. cbn [ret]. unfold bind at 1.
  rewrite file_name_of_total. cbn [lift ret].
  unfold bind at 1, open_rb. unfold bind at 1. cbn [emit app].
  destruct (fs w file_path) as [e|f]; [done|]. cbn [ret].
  rewrite decode_b64encode. unfold bind at 1. cbn [lift ret].
  destruct (argv !! 3%nat) as [parentId|] eqn:E3; [|done].
  unfold bind at 1. cbn [ret].
  destruct (argv !! 2%nat) as [token|] eqn:E2.
  2: { apply lookup_ge_None in E2. apply lookup_lt_Some in E3. lia. }
  unfold bind at 1. cbn [ret]. unfold bind at 1, requests_post.
  rewrite prepare_singleton.
  destruct (Header.wire token) as [e|sent]; [done|].
  unfold bind at 1. cbn [emit app].
  fold (request_for file_path f sent parentId).
  destruct (net w _) as [r|]; [|done]. cbn [ret].
  unfold bind, response_json, print, emit, raise.
  destruct (json_loads (text r)) as [e|j]; [done|]. cbn [ret].
  by destruct (print_check j).
Qed.

End Run.

(** Case analysis along the decision tree. *)
Ltac tree json_loads print_check w argv :=
  rewrite ?run_behaviour; unfold behaviour;
  let p := fresh "p" in let E1 := fresh "E1" in
  destruct (argv !! 1%nat) as [p|] eqn:E1;
  [ let e := fresh "e" in let f := fresh "f" in let Ef := fresh "Ef" in
    destruct (fs w p) as [e|f] eqn:Ef;
    [ | let pid := fresh "pid" in let E3 := fresh "E3" in
        destruct (argv !! 3%nat) as [pid|] eqn:E3;
        [ let t := fresh "t" in let E2 := fresh "E2" in
          destruct (argv !! 2%nat) as [t|] eqn:E2;
          [ let he := fresh "he" in let sent := fresh "sent" in
            let Ew := fresh "Ew" in
            destruct (Header.wire t) as [he|sent] eqn:Ew;
            [ | cbn zeta;
                let r := fresh "r" in let Er := fresh "Er" in
                destruct (net w (request_for p f sent pid)) as [r|] eqn:Er;
                [ let je := fresh "je" in let j := fresh "j" in
                  let Ej := fresh "Ej" in
                  destruct (json_loads (text r)) as [je|j] eqn:Ej;
                  [ | let pe := fresh "pe" in let Ep := fresh "Ep" in
                      destruct (print_check j) as [pe|] eqn:Ep ]
                | ] ]
          | exfalso; apply lookup_ge_None in E2;
            apply lookup_lt_Some in E3; lia ]
        | ] ]
  | ].

Section Posted.
Context {J : Type} (json_loads : string → json_error + J)
        (print_check : J → option print_error).

(** A request is posted only on the path through lines 6-22, and then it
    is the only one. *)
Lemma posted_inv w argv rq :
  rq ∈ posts json_loads print_check w argv →
  ∃ file_path f token sent parentId,
    argv !! 1%nat = Some file_path ∧ fs w file_path = inr f ∧
    argv !! 2%nat = Some token ∧ Header.wire token = inr sent ∧
    argv !! 3%nat = Some parentId ∧
    rq = request_for file_path f sent parentId ∧
    posts json_loads print_check w argv = [rq].
Proof.
  unfold posts. tree json_loads print_check w argv; cbn;
    try (by intros ?%elem_of_nil);
    intros ->%list_elem_of_singleton; by eexists _, _, _, _, _.
Qed.



End Posted.
(** ** The payload *)


Lemma r_json_lookups file_name file_encoded parentId :
  let js := r_json_of file_name file_encoded parentId in
  js !! "name" = Some (JStr file_name) ∧
  js !! "type" = Some (JStr "image") ∧
  js !! "isPublic" = Some (JBool true) ∧
  js !! "data" = Some (JStr file_encoded) ∧
  js !! "parentId" = Some (JStr parentId).
Proof. unfold r_json_of. cbn zeta. split_and!; by simplify_map_eq. Qed.


(** ** Statements about a run *)

Section Claims.
Context {J : Type} (json_loads : string → json_error + J)
        (print_check : J → option print_error).

(** C1. Round trip of the encoding: when the file at [filePath] holds the
    bytes [B], the [data] field of the payload that is built and posted is
    a text whose base64 decoding is exactly [B]. *)
Theorem data_field_roundtrip w argv file_path (B : list byte) rq :
  argv !! 1%nat = Some file_path →
  fs w file_path = inr (File B) →
  rq ∈ posts json_loads print_check w argv →
  ∃ d, json rq !! "data" = Some (JStr d) ∧ b64decode_str d = Some B.
Proof.
  intros E1 Ef
    (p & f & token & sent & parentId & E1' & Ef' & _ & _ & _ & -> & _)%posted_inv.
  assert (p = file_path) as -> by congruence.
  assert (f = File B) as -> by congruence.
  exists (file_encoded B). split.
  - apply r_json_lookups.
  - apply b64decode_file_encoded.
Qed.


(** C3. The name is what follows the last ['/'] of [filePath], and
    [filePath] itself when it has no ['/']; line 7 never raises, and the
    [name] field of a posted payload is that name. *)
Theorem name_is_last_segment (file_path : string) :
  file_name_of file_path = inr (file_name file_path) ∧
  (Str.contains "/" file_path = false → file_name file_path = file_path) ∧
  (∀ pre suf, file_path = pre +:+ "/" +:+ suf →
     Str.contains "/" suf = false → file_name file_path = suf) ∧
  (∀ w argv rq, argv !! 1%nat = Some file_path →
     rq ∈ posts json_loads print_check w argv →
     json rq !! "name" = Some (JStr (file_name file_path))).
Proof.
  split_and!.
  - apply file_name_of_total.
  - apply last_seg_no_sep.
  - intros pre suf -> Hs. by apply last_seg_app.
  - intros w argv rq E1
      (p & f & t & sent & pid & E1' & _ & _ & _ & _ & -> & _)%posted_inv.
    assert (p = file_path) as -> by congruence.
    apply r_json_lookups.
Qed.

(** C4. When the file at [filePath] cannot be opened (missing, a
    directory, or not readable), the run ends with an error of kind
    [FileAccessError], no POST is issued and nothing is printed. *)
Theorem unreadable_file_aborts w argv file_path e :
  argv !! 1%nat = Some file_path →
  fs w file_path = inl e →
  outcome json_loads print_check w argv = inl (exn_of_oserror e) ∧
  kind_of (exn_of_oserror e) = FileAccessError ∧
  posts json_loads print_check w argv = [] ∧
  stdout json_loads print_check w argv = [].
Proof.
  intros E1 Ef. unfold outcome, posts, stdout.
  rewrite run_behaviour. unfold behaviour. rewrite E1, Ef.
  split_and!; try done. by destruct e.
Qed.



(** C7. No partial success: a run either goes through every step (the
    file is opened, one POST is issued, one value is printed) and ends
    normally, or ends with an error having printed nothing. *)
Theorem no_partial_success w argv :
  (∃ file_path rq j,
     run json_loads print_check w argv
     = (inr tt, [EvOpen file_path; EvPost rq; EvPrint j]) ∧
     posts json_loads print_check w argv = [rq] ∧
     stdout json_loads print_check w argv = [j]) ∨
  (∃ e, outcome json_loads print_check w argv = inl e ∧
        stdout json_loads print_check w argv = []).
Proof.
  unfold outcome, posts, stdout.
  tree json_loads print_check w argv; try (right; by eexists).
  left. by eexists _, _, _.
Qed.

(** C8, as amended. With fewer than three command-line arguments the run
    ends with an error, no POST is issued and nothing is printed. The
    error is [IndexError] (kind [ArgumentError]) when there is no first
    argument or when the file it names can be opened, and the error of
    [open] (kind [FileAccessError]) when that file cannot be opened. *)
Theorem too_few_arguments w argv :
  (length argv < 4)%nat →
  ∃ e, outcome json_loads print_check w argv = inl e ∧
       posts json_loads print_check w argv = [] ∧
       stdout json_loads print_check w argv = [] ∧
       match argv !! 1%nat with
       | None => e = IndexError ∧ kind_of e = ArgumentError
       | Some file_path =>
           match fs w file_path with
           | inr _ => e = IndexError ∧ kind_of e = ArgumentError
           | inl err => e = exn_of_oserror err ∧ kind_of e = FileAccessError
           end
       end.
Proof.
  intros Hlen. unfold outcome, posts, stdout.
  rewrite run_behaviour. unfold behaviour.
  destruct (argv !! 1%nat) as [p|]; [|by eexists].
  destruct (fs w p) as [e|f]; [eexists; split_and!; try done; by destruct e|].
  rewrite (proj2 (lookup_ge_None argv 3)) by lia. by eexists.
Qed.

(** C10, as amended. Only ['/'] separates: a path without ['/'] is its own
    name. For a path that ends in ['/'] the name is the empty string and
    nothing in the script checks it, but no request is built or sent for
    such a path: on a file system where no path ending in ['/'] opens as a
    file, [open] fails, the run ends with an error of kind
    [FileAccessError], nothing is posted and nothing is printed. *)
Theorem trailing_slash_empty_name (file_path : string) :
  (∀ p, Str.contains "/" p = false → file_name p = p) ∧
  (Str.endswith "/" file_path = true →
   file_name file_path = EmptyString ∧
   ∀ w argv,
     refuses_trailing_slash w →
     argv !! 1%nat = Some file_path →
     failed_with FileAccessError (outcome json_loads print_check w argv) ∧
     posts json_loads print_check w argv = [] ∧
     stdout json_loads print_check w argv = []).
Proof.
  split; [apply last_seg_no_sep|]. intros Hend.
  assert (file_name file_path = EmptyString) as Hn.
  { pose proof (nonempty_last_seg "/" file_path) as H.
    rewrite Hend, andb_false_r in H.
    fold (file_name file_path) in H.
    by destruct (file_name file_path). }
  split; [done|]. intros w argv Hw E1.
  unfold failed_with, outcome, posts, stdout.
  rewrite run_behaviour. unfold behaviour. rewrite E1.
  destruct (fs w file_path) as [e|f] eqn:Ef.
  - split_and!; try done. eexists. split; [done|]. by destruct e.
  - apply Hw in Ef. congruence.
Qed.

End Claims.

(** C9, as amended. The name is non-empty exactly when the path is
    non-empty and does not end in ['/'], that is, when the piece after
    its last ['/'] is non-empty. *)
Theorem name_nonempty_iff (file_path : string) :
  Str.nonempty (file_name file_path)
  = Str.nonempty file_path && negb (Str.endswith "/" file_path).
Proof. apply nonempty_last_seg. Qed.

(** ** The statements at concrete inputs *)

Example run_photo :
  run Demo.loads Demo.print_check Demo.w_json Demo.argv3
  = (inr tt,
     [EvOpen "a/b/c/photo.png"; EvPost Demo.rq3; EvPrint (Demo.VBool true)]).
Proof. reflexivity. Qed.

Example run_html :
  run Demo.loads Demo.print_check Demo.w_html Demo.argv3
  = (inl JSONDecodeError, [EvOpen "a/b/c/photo.png"; EvPost Demo.rq3]).
Proof. reflexivity. Qed.

Example run_missing :
  run Demo.loads Demo.print_check Demo.w_json Demo.argv_missing
  = (inl FileNotFoundError, [EvOpen "missing.png"]).
Proof. reflexivity. Qed.

Example run_directory :
  run Demo.loads Demo.print_check Demo.w_json
      ["image_upload.py"; "a/b/c"; "t"; "42"]%string
  = (inl IsADirectoryError, [EvOpen "a/b/c"]).
Proof. reflexivity. Qed.

Example run_slash :
  run Demo.loads Demo.print_check Demo.w_json Demo.argv_slash
  = (inl IsADirectoryError, [EvOpen "a/b/c/"]).
Proof. reflexivity. Qed.

Example run_file_slash :
  run Demo.loads Demo.print_check Demo.w_json
      ["image_upload.py"; "a/b/c/photo.png/"; "t"; "42"]%string
  = (inl NotADirectoryError, [EvOpen "a/b/c/photo.png/"]).
Proof. reflexivity. Qed.

Example run_two_arguments :
  run Demo.loads Demo.print_check Demo.w_json Demo.argv2
  = (inl IndexError, [EvOpen "a/b/c/photo.png"]).
Proof. reflexivity. Qed.

Example run_no_argument :
  run Demo.loads Demo.print_check Demo.w_json ["image_upload.py"%string]
  = (inl IndexError, []).
Proof. reflexivity. Qed.

Example run_token_latin1 :
  run Demo.loads Demo.print_check Demo.w_json Demo.argv_latin1
  = (inr tt,
     [EvOpen "a/b/c/photo.png"; EvPost Demo.rq_latin1;
      EvPrint (Demo.VBool true)]).
Proof. reflexivity. Qed.

Example run_token_euro :
  run Demo.loads Demo.print_check Demo.w_json Demo.argv_euro
  = (inl UnicodeEncodeError, [EvOpen "a/b/c/photo.png"]).
Proof. reflexivity. Qed.

Example run_token_space :
  run Demo.loads Demo.print_check Demo.w_json Demo.argv_space
  = (inl InvalidHeader, [EvOpen "a/b/c/photo.png"]).
Proof. reflexivity. Qed.

Example run_token_newline :
  run Demo.loads Demo.print_check Demo.w_json Demo.argv_newline
  = (inl ValueError, [EvOpen "a/b/c/photo.png"]).
Proof. reflexivity. Qed.

Example run_surrogate :
  run Demo.loads Demo.print_check Demo.w_surrogate Demo.argv3
  = (inl UnicodeEncodeError, [EvOpen "a/b/c/photo.png"; EvPost Demo.rq3]).
Proof. reflexivity. Qed.

Example run_digits :
  run Demo.loads Demo.print_check Demo.w_digits Demo.argv3
  = (inl ValueError, [EvOpen "a/b/c/photo.png"; EvPost Demo.rq3]).
Proof. by vm_compute. Qed.

Example loads_pair :
  Demo.loads (Demo.quoted "\ud83d\ude00!")
  = inr (Demo.VStr [0x1F600; 0x21]).
Proof. reflexivity. Qed.

Ltac posted_by_eval := vm_compute; apply list_elem_of_here.

(** On [Demo.disk] only one path opens, and it does not end in ['/']. *)
Lemma demo_disk_refuses n : refuses_trailing_slash (World Demo.disk n).
Proof.
  intros path f. cbn [fs]. unfold Demo.disk.
  destruct (String.eqb_spec path "a/b/c/photo.png") as [->|_]; [done|].
  by repeat destruct (String.eqb path _).
Qed.

Lemma data_field_roundtrip_witness :
  Demo.argv3 !! 1%nat = Some "a/b/c/photo.png"%string ∧
  fs Demo.w_json "a/b/c/photo.png" = inr (File Demo.photo) ∧
  ∃ d, json Demo.rq3 !! "data" = Some (JStr d) ∧
       b64decode_str d = Some Demo.photo.
Proof.
  split; [reflexivity|]. split; [reflexivity|].
  apply (data_field_roundtrip Demo.loads Demo.print_check Demo.w_json
           Demo.argv3 "a/b/c/photo.png" Demo.photo Demo.rq3);
    [reflexivity | reflexivity | posted_by_eval].
Defined.


Lemma name_is_last_segment_witness :
  file_name "a/b/c/photo.png" = "photo.png"%string ∧
  file_name "photo.png" = "photo.png"%string.
Proof.
  split.
  - apply (proj1 (proj2 (proj2
             (name_is_last_segment Demo.loads Demo.print_check
                "a/b/c/photo.png")))
             "a/b/c"%string "photo.png"%string); reflexivity.
  - apply (proj1 (proj2 (name_is_last_segment Demo.loads Demo.print_check
                           "photo.png")));
      reflexivity.
Defined.

Lemma unreadable_file_aborts_witness :
  outcome Demo.loads Demo.print_check Demo.w_json Demo.argv_missing
    = inl FileNotFoundError ∧
  kind_of FileNotFoundError = FileAccessError ∧
  posts Demo.loads Demo.print_check Demo.w_json Demo.argv_missing = [] ∧
  stdout Demo.loads Demo.print_check Demo.w_json Demo.argv_missing = [].
Proof.
  apply (unreadable_file_aborts Demo.loads Demo.print_check Demo.w_json
           Demo.argv_missing "missing.png" ENOENT); reflexivity.
Defined.



Lemma too_few_arguments_witness :
  (length Demo.argv2 < 4)%nat ∧
  ∃ e, outcome Demo.loads Demo.print_check Demo.w_json Demo.argv2 = inl e ∧
       posts Demo.loads Demo.print_check Demo.w_json Demo.argv2 = [] ∧
       stdout Demo.loads Demo.print_check Demo.w_json Demo.argv2 = [] ∧
       e = IndexError ∧ kind_of e = ArgumentError.
Proof.
  assert (length Demo.argv2 < 4)%nat as Hlen by (cbn; lia).
  split; [exact Hlen|].
  exact (too_few_arguments Demo.loads Demo.print_check Demo.w_json Demo.argv2
           Hlen).
Defined.

Lemma trailing_slash_empty_name_witness :
  Str.endswith "/" "a/b/c/" = true ∧
  refuses_trailing_slash Demo.w_json ∧
  Demo.argv_slash !! 1%nat = Some "a/b/c/"%string ∧
  file_name "a/b/c/" = EmptyString ∧
  failed_with FileAccessError
    (outcome Demo.loads Demo.print_check Demo.w_json Demo.argv_slash) ∧
  posts Demo.loads Demo.print_check Demo.w_json Demo.argv_slash = [] ∧
  stdout Demo.loads Demo.print_check Demo.w_json Demo.argv_slash = [].
Proof.
  split; [reflexivity|]. split; [apply demo_disk_refuses|].
  split; [reflexivity|].
  destruct (proj2 (trailing_slash_empty_name Demo.loads Demo.print_check
                     "a/b/c/") eq_refl) as [Hn Hp].
  split; [exact Hn|].
  exact (Hp Demo.w_json Demo.argv_slash (demo_disk_refuses _) eq_refl).
Defined.




(** C8 as stated fails: with one argument that names a missing file, the
    run ends with [FileNotFoundError], of kind [FileAccessError], raised
    by [open] on line 10 before [sys.argv[3]] is read on line 18. *)
Lemma too_few_arguments_counterexample :
  (length Demo.argv1_missing < 4)%nat ∧
  outcome Demo.loads Demo.print_check Demo.w_json Demo.argv1_missing
    = inl FileNotFoundError ∧
  ¬ failed_with ArgumentError
      (outcome Demo.loads Demo.print_check Demo.w_json Demo.argv1_missing).
Proof.
  split; [cbn; lia|]. split; [reflexivity|].
  intros (e & He & Hk). cbv in He. by simplify_eq.
Qed.

(** C9 as stated fails: ["a/"] has the non-empty piece ["a"], and its
    name is empty. *)
Lemma name_nonempty_counterexample :
  has_nonsep_segment "a/" = true ∧
  file_name_of "a/" = inr EmptyString ∧
  Str.nonempty (file_name "a/") = false.
Proof. by split_and!. Qed.

(** C10 as stated fails: for a path that ends in ['/'] and names no file,
    three arguments are given and no request is sent. *)
Lemma trailing_slash_counterexample :
  Demo.argv_slash_missing !! 1%nat = Some "missing/"%string ∧
  length Demo.argv_slash_missing = 4%nat ∧
  Str.endswith "/" "missing/" = true ∧
  outcome Demo.loads Demo.print_check Demo.w_json Demo.argv_slash_missing
    = inl FileNotFoundError ∧
  posts Demo.loads Demo.print_check Demo.w_json Demo.argv_slash_missing = [].
Proof. by split_and!. Qed.
(** * Further properties of the script *)

(** ** The name *)

Lemma last_seg_decompose sep s :
  Str.contains sep (last_seg sep s) = false ∧
  (s = last_seg sep s ∨ ∃ pre, s = pre +:+ String sep (last_seg sep s)).
Proof.
  induction s as [|c s [IHc IHd]]; [by split; [|left]|].
  rewrite last_seg_cons. destruct (Ascii.eqb_spec c sep) as [->|Hne].
  - split; [done|]. right. destruct IHd as [Hs|[pre Hs]].
    + exists EmptyString. change (String sep s = String sep (last_seg sep s)).
      by f_equal.
    + exists (String sep pre).
      change (String sep s = String sep (pre +:+ String sep (last_seg sep s))).
      by f_equal.
  - destruct (Str.contains sep s) eqn:Hc.
    + split; [done|]. right. destruct IHd as [Hs|[pre Hs]].
      * rewrite <- Hs in IHc. congruence.
      * exists (String c pre).
        change (String c s = String c (pre +:+ String sep (last_seg sep s))).
        by f_equal.
    + split; [|by left]. cbn. rewrite Hc.
      by rewrite (proj2 (Ascii.eqb_neq c sep)).
Qed.

(** X1. The name never contains a ['/'], and it is the end of the path:
    the path is the name itself, or something, a ['/'], and the name. *)
Theorem name_is_separator_free_suffix (file_path : string) :
  Str.contains "/" (file_name file_path) = false ∧
  (file_path = file_name file_path ∨
   ∃ pre, file_path = pre +:+ "/" +:+ file_name file_path).
Proof. apply last_seg_decompose. Qed.

(** X2. Directories in front do not matter: the name of [dir/path] is the
    name of [path]; and the name of a name is that name. *)
Theorem name_ignores_directories (dir file_path : string) :
  file_name (dir +:+ "/" +:+ file_path) = file_name file_path ∧
  file_name (file_name file_path) = file_name file_path.
Proof.
  split.
  - unfold file_name, last_seg.
    change (dir +:+ "/" +:+ file_path) with (dir +:+ String "/" file_path).
    rewrite split_app, last_app.
    destruct (split_cons_inv "/" file_path) as (seg & segs & E).
    destruct (last (Str.split "/" file_path)) eqn:El; [done|].
    apply last_None in El. congruence.
  - apply last_seg_no_sep, last_seg_decompose.
Qed.

(** X3. [s.split(sep)] gives one piece more than [s] has separators, and
    no piece contains the separator. *)
Theorem split_pieces (sep : ascii) (s : string) :
  Forall (λ seg, Str.contains sep seg = false) (Str.split sep s) ∧
  length (Str.split sep s)
  = S (length (filter (λ c, c = sep) (list_ascii_of_string s))).
Proof.
  induction s as [|c s [IHf IHl]]; [by split; [repeat constructor|]|].
  cbn [Str.split list_ascii_of_string].
  destruct (Ascii.eqb_spec c sep) as [->|Hne].
  - split; [by constructor|].
    rewrite filter_cons_True by done. cbn. by rewrite IHl.
  - rewrite filter_cons_False by done.
    destruct (split_cons_inv sep s) as (seg & segs & E). rewrite E in *.
    split; [|done]. inversion IHf as [|?? Hseg Hsegs]; subst.
    constructor; [|done]. cbn. rewrite Hseg.
    by rewrite (proj2 (Ascii.eqb_neq c sep)).
Qed.

(** ** The encoded text *)

Section Encoding.
Import Base64.

Lemma length_b64encode (s : list byte) :
  length (b64encode s) = (4 * ((length s + 2) / 3))%nat.
Proof.
  induction s as [|b0|b0 b1|b0 b1 b2 rest IH] using list_ind3.
  - reflexivity.
  - cbn [b64encode]. by destruct (sextets _ _ _) as [[[? ?] ?] ?].
  - cbn [b64encode]. by destruct (sextets _ _ _) as [[[? ?] ?] ?].
  - cbn [b64encode]. destruct (sextets _ _ _) as [[[? ?] ?] ?].
    cbn [length]. rewrite IH.
    replace (S (S (S (length rest))) + 2)%nat
      with ((length rest + 2) + 1 * 3)%nat by lia.
    rewrite Nat.div_add by done. lia.
Qed.

Lemma b2a_in_alphabet i :
  b2a i ∈ table_b2a_base64 ∨ b2a i = BASE64_PAD.
Proof.
  unfold b2a.
  destruct (nth_in_or_default (N.to_nat i) table_b2a_base64 BASE64_PAD)
    as [Hin|Hd]; [left; by apply list_elem_of_In|by right].
Qed.

Lemma b64encode_alphabet (s : list byte) :
  Forall (λ c, c ∈ table_b2a_base64 ∨ c = BASE64_PAD) (b64encode s).
Proof.
  induction s as [|b0|b0 b1|b0 b1 b2 rest IH] using list_ind3;
    cbn [b64encode]; [constructor|..];
    destruct (sextets _ _ _) as [[[s0 s1] s2] s3];
    repeat (constructor; [apply b2a_in_alphabet || by right|]);
    done || constructor.
Qed.

Lemma length_string_of_list_byte (l : list byte) :
  String.length (string_of_list_byte l) = length l.
Proof.
  unfold string_of_list_byte. induction l as [|b l IH]; [done|].
  cbn. by rewrite IH.
Qed.

Lemma b2a_sextet_not_pad b0 b1 b2 s0 s1 s2 s3 :
  sextets (Byte.to_N b0) (Byte.to_N b1) (Byte.to_N b2) = (s0, s1, s2, s3) →
  b2a s0 ≠ BASE64_PAD ∧ b2a s1 ≠ BASE64_PAD ∧
  b2a s2 ≠ BASE64_PAD ∧ b2a s3 ≠ BASE64_PAD.
Proof.
  intros E.
  destruct (sextets_spec (Byte.to_N b0) (Byte.to_N b1) (Byte.to_N b2))
    as (t0 & t1 & t2 & t3 & E' & (?&?&?&?) & _); [apply to_N_lt ..|].
  rewrite E in E'. simplify_eq.
  split_and!; intros Heq;
    match goal with H : ?t < 64 |- _ =>
      match type of Heq with b2a t = _ =>
        pose proof (b2a_not_pad t H) as Hn; rewrite Heq in Hn; done
      end
    end.
Qed.

(** X4. Encoding in pieces: when the first part has a multiple of three
    bytes, the encoding of two parts put together is the two encodings
    put together. *)
Theorem b64encode_app (a b : list byte) :
  (length a mod 3 = 0)%nat →
  b64encode (a ++ b) = b64encode a ++ b64encode b.
Proof.
  induction a as [|x|x y|x y z a IH] using list_ind3; [done|done|done|].
  intros Hlen. cbn [app b64encode].
  destruct (sextets _ _ _) as [[[s0 s1] s2] s3]. cbn [app].
  rewrite IH; [done|]. cbn [length] in Hlen.
  replace (S (S (S (length a)))) with (length a + 1 * 3)%nat in Hlen by lia.
  by rewrite Nat.Div0.mod_add in Hlen.
Qed.

(** X5. The encoding contains the padding character ['='] exactly when
    the number of bytes is not a multiple of three. *)
Theorem b64encode_padded_iff (s : list byte) :
  BASE64_PAD ∈ b64encode s ↔ (length s mod 3 ≠ 0)%nat.
Proof.
  induction s as [|b0|b0 b1|b0 b1 b2 rest IH] using list_ind3.
  - split; [by intros ?%elem_of_nil|done].
  - cbn [b64encode]. destruct (sextets _ _ _) as [[[s0 s1] s2] s3].
    split; [done|]. intros _. rewrite !elem_of_cons. naive_solver.
  - cbn [b64encode]. destruct (sextets _ _ _) as [[[s0 s1] s2] s3].
    split; [done|]. intros _. rewrite !elem_of_cons. naive_solver.
  - cbn [b64encode].
    destruct (sextets _ _ _) as [[[s0 s1] s2] s3] eqn:E.
    apply b2a_sextet_not_pad in E as (?&?&?&?).
    cbn [length].
    replace (S (S (S (length rest)))) with (length rest + 1 * 3)%nat by lia.
    rewrite Nat.Div0.mod_add, <- IH, !elem_of_cons. clear IH.
    intuition congruence.
Qed.

End Encoding.

(** X6. Files with different contents get different encoded texts. *)
Theorem file_encoded_injective (a b : list byte) :
  file_encoded a = file_encoded b → a = b.
Proof.
  intros E. pose proof (b64decode_file_encoded a) as Ha.
  rewrite E, b64decode_file_encoded in Ha. congruence.
Qed.

(** ** Runs *)

Section More.
Context {J : Type} (json_loads : string → json_error + J)
        (print_check : J → option print_error).

(** X7. The [data] field of a posted payload, for a file of [n] bytes, has
    [4 * ceil(n / 3)] characters, each one of the 64 characters of the
    alphabet or ['=']. *)
Theorem data_field_shape w argv file_path (B : list byte) rq :
  argv !! 1%nat = Some file_path →
  fs w file_path = inr (File B) →
  rq ∈ posts json_loads print_check w argv →
  ∃ d, json rq !! "data" = Some (JStr d) ∧
       String.length d = (4 * ((length B + 2) / 3))%nat ∧
       Forall (λ c, c ∈ Base64.table_b2a_base64 ∨ c = Base64.BASE64_PAD)
              (list_byte_of_string d).
Proof.
  intros E1 Ef
    (p & f & token & sent & parentId & E1' & Ef' & _ & _ & _ & -> & _)%posted_inv.
  assert (p = file_path) as -> by congruence.
  assert (f = File B) as -> by congruence.
  exists (file_encoded B). split_and!.
  - apply r_json_lookups.
  - unfold file_encoded.
    by rewrite length_string_of_list_byte, length_b64encode.
  - unfold file_encoded. rewrite list_byte_of_string_of_list_byte.
    apply b64encode_alphabet.
Qed.

(** X8. When the POST gets no reply, the run ends with [ConnectionError],
    of kind [NetworkError]; the request was issued once, it is not
    repeated, and nothing is printed. *)
Theorem network_failure_aborts w argv rq :
  rq ∈ posts json_loads print_check w argv →
  net w rq = None →
  outcome json_loads print_check w argv = inl ConnectionError ∧
  kind_of ConnectionError = NetworkError ∧
  posts json_loads print_check w argv = [rq] ∧
  stdout json_loads print_check w argv = [].
Proof.
  intros (p & f & t & sent & pid & E1 & Ef & E2 & Ew & E3 & -> & Hp)%posted_inv
         Hn.
  split_and!; [|done|done|]; unfold outcome, stdout;
    rewrite run_behaviour; unfold behaviour;
    rewrite E1, Ef, E2, E3, Ew; cbn zeta; by rewrite Hn.
Qed.


(** X10. Only the first three arguments count: the name of the program
    and any argument after the third change nothing of a run. *)
Theorem extra_arguments_ignored w prog prog' file_path token parentId rest :
  run json_loads print_check w (prog :: file_path :: token :: parentId :: rest)
  = run json_loads print_check w [prog'; file_path; token; parentId].
Proof. by rewrite !run_behaviour. Qed.

(** X11. A run ends with [IndexError] exactly when there is no first
    argument, or when there are fewer than three arguments and the file
    named by the first one opens. *)
Theorem index_error_iff w argv :
  outcome json_loads print_check w argv = inl IndexError ↔
  (length argv < 2)%nat ∨
  ((length argv < 4)%nat ∧
   ∃ file_path f, argv !! 1%nat = Some file_path ∧ fs w file_path = inr f).
Proof.
  unfold outcome. tree json_loads print_check w argv; cbn [fst].
  all: try (apply lookup_lt_Some in E1).
  all: try (apply lookup_lt_Some in E3).
  all: try (apply lookup_ge_None in E1).
  all: try (apply lookup_ge_None in E3).
  - split; [by destruct e|].
    intros [?|[_ (p' & f' & ? & ?)]]; [lia|congruence].
  - split; [by destruct he|]. intros [?|[? _]]; lia.
  - split; [by destruct je|]. intros [?|[? _]]; lia.
  - split; [by destruct pe|]. intros [?|[? _]]; lia.
  - split; [done|]. intros [?|[? _]]; lia.
  - split; [done|]. intros [?|[? _]]; lia.
  - split; [|done]. intros _. right. split; [lia|]. by eexists _, _.
  - split; [intros _; left; lia|done].
Qed.



(** X14. The file named by the first argument is opened once whenever
    there is a first argument, also when later arguments are missing, and
    no other file is opened. *)
Theorem file_opened_once w argv :
  opens_of (snd (run json_loads print_check w argv))
  = match argv !! 1%nat with Some file_path => [file_path] | None => [] end.
Proof.
  by tree json_loads print_check w argv.
Qed.


End More.


(** ** The further statements at concrete inputs *)

Example run_offline :
  run Demo.loads Demo.print_check Offline.w_down Demo.argv3
  = (inl ConnectionError, [EvOpen "a/b/c/photo.png"; EvPost Demo.rq3]).
Proof. reflexivity. Qed.

Lemma b64encode_app_witness :
  Base64.b64encode (list_byte_of_string "Man" ++ list_byte_of_string "Ma")
  = list_byte_of_string "TWFu" ++ list_byte_of_string "TWE=".
Proof.
  apply (b64encode_app (list_byte_of_string "Man") (list_byte_of_string "Ma")).
  reflexivity.
Defined.

Lemma b64encode_padded_iff_witness :
  Base64.BASE64_PAD ∈ Base64.b64encode (list_byte_of_string "Ma").
Proof.
  apply (proj2 (b64encode_padded_iff (list_byte_of_string "Ma"))).
  cbn. lia.
Defined.

Lemma file_encoded_injective_witness :
  list_byte_of_string "Man" = [x4d; x61; x6e]%list.
Proof.
  apply (file_encoded_injective (list_byte_of_string "Man") [x4d; x61; x6e]).
  reflexivity.
Defined.

Lemma data_field_shape_witness :
  ∃ d, json Demo.rq3 !! "data" = Some (JStr d) ∧
       String.length d = 4%nat ∧
       Forall (λ c, c ∈ Base64.table_b2a_base64 ∨ c = Base64.BASE64_PAD)
              (list_byte_of_string d).
Proof.
  apply (data_field_shape Demo.loads Demo.print_check Demo.w_json Demo.argv3
           "a/b/c/photo.png" Demo.photo Demo.rq3);
    [reflexivity | reflexivity | posted_by_eval].
Defined.

Lemma network_failure_aborts_witness :
  outcome Demo.loads Demo.print_check Offline.w_down Demo.argv3
  = inl ConnectionError ∧
  kind_of ConnectionError = NetworkError ∧
  posts Demo.loads Demo.print_check Offline.w_down Demo.argv3 = [Demo.rq3] ∧
  stdout Demo.loads Demo.print_check Offline.w_down Demo.argv3 = [].
Proof.
  apply (network_failure_aborts Demo.loads Demo.print_check Offline.w_down
           Demo.argv3 Demo.rq3);
    [posted_by_eval | reflexivity].
Defined.


Lemma index_error_iff_witness :
  outcome Demo.loads Demo.print_check Demo.w_json Demo.argv2 = inl IndexError.
Proof.
  apply (proj2 (index_error_iff Demo.loads Demo.print_check Demo.w_json Demo.argv2)).
  right. split; [cbn; lia|].
  exists "a/b/c/photo.png"%string, (File Demo.photo). split; reflexivity.
Defined.

